(** * Research-query front-end and Parquet summary tool

    A shallow embedding of the two scripts of the repository:

    - [MCP/demo_server/tools/parquet_tools.py], the MCP tool
      [summaries_parquet_file] (module [Parquet]);
    - [Agent Deployment/Local/OpenAI Agents SDK with Docker/app.py], the
      Streamlit front-end with its guardrail and triage agents (module [App]).

    Both scripts are sequences of calls into their surroundings (UI toolkit,
    agent runtime, file system).  They are modelled in a state-and-exception
    monad over an explicit world; the world carries a log of the external
    effects in the order in which the script performs them. *)

From Stdlib Require Import Strings.Ascii Strings.String Strings.Byte.
From stdpp Require Import gmap strings list fin_maps pretty.


(** ** Effects: world passing with Python exceptions *)

Inductive Outcome (E A : Type) : Type :=
| Return (a : A)
| Raise (e : E).
Arguments Return {E A} a.
Arguments Raise {E A} e.

Definition M (W E A : Type) : Type := W -> Outcome E A * W.

Definition ret {W E A} (a : A) : M W E A := fun w => (Return a, w).

Definition raise {W E A} (e : E) : M W E A := fun w => (Raise e, w).

Definition bind {W E A B} (m : M W E A) (k : A -> M W E B) : M W E B :=
  fun w =>
    match m w with
    | (Return a, w') => k a w'
    | (Raise e, w') => (Raise e, w')
    end.

Definition gets {W E A} (f : W -> A) : M W E A := fun w => (Return (f w), w).

Definition modify {W E} (f : W -> W) : M W E unit := fun w => (Return tt, f w).

(** [with cm: body]: the exit action runs whether or not the body raises,
    and an exception of the body is raised again afterwards. *)
Definition with_block {W E A} (enter exit : M W E unit) (body : M W E A)
  : M W E A :=
  bind enter (fun _ w =>
    match body w with
    | (Return a, w') => bind exit (fun _ => ret a) w'
    | (Raise e, w') => bind exit (fun _ => raise e) w'
    end).

Declare Scope py_scope.
Delimit Scope py_scope with py.
Notation "x <- c1 ; c2" := (bind c1 (fun x => c2))
  (at level 100, c1 at next level, right associativity) : py_scope.
Notation "c1 ;; c2" := (bind c1 (fun _ => c2))
  (at level 100, right associativity) : py_scope.

(** The part of a log added by a computation: what [after] holds beyond
    the length of [before]. *)
Definition added {A} (before after : list A) : list A :=
  drop (length before) after.

(** * The Parquet summary tool *)

Module Parquet.

(** A path is the list of its components below the root; the data directory
    of the tool's docstring is [/data]. *)
Abbreviation Path := (list string).

Definition DATA_DIR : Path := ["data"].

Inductive Exn :=
| FileNotFound (filename : string)
| UnreadableFormat (filename : string)
| InvalidArguments.

Record World := {
  fs : gmap Path (list byte);   (* the files, by absolute path *)
  reads : list Path             (* every file opened for reading, oldest first *)
}.

Abbreviation IO := (M World Exn).

(** *** Paths *)

Definition slash : ascii := "/"%char.

Fixpoint split_on (sep : ascii) (s : string) : list string :=
  match s with
  | EmptyString => [EmptyString]
  | String c rest =>
      if decide (c = sep) then EmptyString :: split_on sep rest
      else match split_on sep rest with
           | [] => [String c EmptyString]
           | word :: words => String c word :: words
           end
  end.

(** One component applied to the directory reached so far, as the operating
    system walks a path: empty components and [.] stay, [..] goes up (the
    root is its own parent), a name goes down. *)
Definition walk (dir : Path) (component : string) : Path :=
  if decide (component = "") then dir
  else if decide (component = ".") then dir
  else if decide (component = "..") then removelast dir
  else dir ++ [component].

Definition is_absolute (filename : string) : bool :=
  match filename with
  | String c _ => bool_decide (c = slash)
  | EmptyString => false
  end.

(** The file that [filename] denotes when it is joined to [base]. *)
Definition resolve (base : Path) (filename : string) : Path :=
  foldl walk (if is_absolute filename then [] else base)
        (split_on slash filename).

(** [p] lies strictly below the directory [dir]. *)
Definition inside (dir p : Path) : bool :=
  bool_decide (dir `prefix_of` p /\ p <> dir).

(** *** The file summary provider *)

Module file_reader.
Section provider.

(** The decoder of the columnar format (the Parquet library): the row and
    column counts of a valid file, [None] for anything else. *)
Variable decode_parquet : list byte -> option (nat * nat).

(** The wording of the summary is the provider's; it is a function of the
    file name and the two counts. *)
Variable describe : string -> nat -> nat -> string.

Definition open_read (p : Path) : IO (option (list byte)) :=
  (modify (fun w => {| fs := fs w; reads := reads w ++ [p] |}) ;;
   gets (fun w => fs w !! p))%py.

(** Modelled from the spec: [utils/file_reader.py] (the function
    [read_parquet_summary] that the tool imports) is not among the
    sources.  Section 4.4: the file name is constrained to reside in the
    data directory (no path traversal outside it); the provider opens the
    file, fails with FileNotFound if the file does not exist and with
    UnreadableFormat if it is not a valid instance of the format, returns
    a description combining both counts, and keeps no cache. *)
Definition read_parquet_summary (filename : string) : IO string :=
  let file_path := resolve DATA_DIR filename in
  if inside DATA_DIR file_path then
    (content <- open_read file_path;
     match content with
     | None => raise (FileNotFound filename)
     | Some bytes =>
         match decode_parquet bytes with
         | None => raise (UnreadableFormat filename)
         | Some (rows, columns) => ret (describe filename rows columns)
         end
     end)%py
  else raise (FileNotFound filename).

End provider.
End file_reader.

(** *** The registered tool ([parquet_tools.py]) *)

Section tools.

(** [from utils.file_reader import read_parquet_summary] *)
Variable read_parquet_summary : string -> IO string.

Definition summaries_parquet_file (filename : string) : IO string :=
  read_parquet_summary filename.

End tools.

(** *** The tool protocol boundary *)

(** A JSON value of a tool call's argument object. *)
Inductive Arg :=
| ArgString (s : string)
| ArgNumber (n : Z)
| ArgNull.

Record Tool := {
  tool_name : string;
  tool_description : string;
  tool_parameter : string;          (* the single required string parameter *)
  tool_fn : string -> IO string
}.

(** What the protocol receives: a text content, or an error result. *)
Inductive ToolResult :=
| ToolText (text : string)
| ToolError (e : Exn).

(** Modelled from the spec: [server.py] (the [mcp] object whose [tool]
    decorator registers the function) is not among the sources.  Section
    4.5: the function is exposed under a stable name with a description and
    one required string parameter. *)
Definition mcp_tool (name docstring parameter : string)
    (fn : string -> IO string) : Tool :=
  {| tool_name := name; tool_description := docstring;
     tool_parameter := parameter; tool_fn := fn |}.

(** Modelled from the spec: the dispatch of a tool call by the [mcp] server
    object.  Sections 4.5 and 7: the supplied argument must map to the
    single expected parameter, otherwise the call fails with
    InvalidArguments and the function is not invoked; a failure of the
    function surfaces as a tool-protocol error, with no retry and no
    suppression. *)
Definition call_tool (t : Tool) (arguments : gmap string Arg)
  : World -> ToolResult * World :=
  fun w =>
    match arguments !! tool_parameter t with
    | Some (ArgString value) =>
        match tool_fn t value w with
        | (Return text, w') => (ToolText text, w')
        | (Raise e, w') => (ToolError e, w')
        end
    | _ => (ToolError InvalidArguments, w)
    end.

(** The docstring of the function, as it stands between its quotes. *)
Definition docstring : string :=
  "
    Summarise a Parquet file by reporting the number of rows and columns
    
    Args: 
        filename: Name of the Parquet file in /data directory (e.g, sample.parquet)
        
    Returns: 
        A string describing the file's dimensions
    ".

(** The server as it is assembled: the tool of [parquet_tools.py] over the
    provider of [utils/file_reader.py]. *)
Definition server_tool (decode_parquet : list byte -> option (nat * nat))
    (describe : string -> nat -> nat -> string) : Tool :=
  mcp_tool "summaries_parquet_file" docstring "filename"
    (summaries_parquet_file
       (file_reader.read_parquet_summary decode_parquet describe)).

(** The file that a tool argument names, if there is one: the argument
    joined to the data directory denotes an existing file below it. *)
Definition named_file (w : World) (filename : string) : option (list byte) :=
  if inside DATA_DIR (resolve DATA_DIR filename)
  then fs w !! resolve DATA_DIR filename
  else None.

(** *** Sample worlds *)

(** A decoder that takes two-byte files for tables of five rows and three
    columns and rejects every other file. *)
Definition sample_decode (bytes : list byte) : option (nat * nat) :=
  if decide (length bytes = 2) then Some (5, 3) else None.

Definition sample_describe (filename : string) (rows columns : nat)
  : string :=
  filename +:+ ": " +:+ pretty rows +:+ " rows, " +:+ pretty columns
  +:+ " columns".

(** A valid and an invalid file in the data directory, and a valid file
    above it. *)
Definition sample_world : World :=
  {| fs := {[ ["data"; "sample.parquet"] := [x01; x02]%byte;
              ["data"; "notes.txt"] := [x68]%byte;
              ["secret.parquet"] := [x03; x04]%byte ]};
     reads := [] |}.

Definition sample_tool : string -> IO string :=
  summaries_parquet_file
    (file_reader.read_parquet_summary sample_decode sample_describe).

End Parquet.

(** * The research-query front-end *)

Module App.

(** *** Values of the agents library *)

(** [class ResearchOutput(BaseModel)] *)
Record ResearchOutput := {
  is_research : bool;
  reasoning : string
}.

(** The [output_type] of an agent: absent for plain text. *)
Inductive OutputType := ResearchOutputType.

(** What a run ends with: a text, or an instance of the output type. *)
Inductive FinalOutput :=
| Text (s : string)
| Structured (r : ResearchOutput).

(** Guardrail functions are referred to by name; [research_guardrail] is
    the only one of the script. *)
Inductive GuardrailFunction := research_guardrail_ref.

Record InputGuardrail := {
  guardrail_function : GuardrailFunction
}.

#[warnings="-register-all"] Inductive Agent := mkAgent {
  name : string;
  instructions : string;
  handoff_description : option string;
  handoffs : list Agent;
  input_guardrails : list InputGuardrail;
  output_type : option OutputType
}.

Record GuardrailFunctionOutput := {
  output_info : FinalOutput;
  tripwire_triggered : bool
}.

Record InputGuardrailResult := {
  guardrail : InputGuardrail;
  output : GuardrailFunctionOutput
}.

Record RunResult := {
  final_output : FinalOutput;
  last_agent : Agent
}.

Record RunContextWrapper := {
  context : option string
}.

Inductive Exn :=
| InputGuardrailTripwireTriggered (guardrail_result : InputGuardrailResult)
| ModelBehaviorError (agent_name : string)
| RuntimeUnavailable (message : string)
| AttributeError (attribute : string).

(** A computation stops with a Python exception, or because the model of
    the runtime was given too little fuel. *)
Inductive Abort :=
| Exception (e : Exn)
| OutOfFuel.

(** *** The surroundings of the script *)

(** An answer of the hosted model, or the failure to reach it. *)
Inductive Reply (A : Type) :=
| Replied (a : A)
| Unavailable (message : string).
Arguments Replied {A} a.
Arguments Unavailable {A} message.

(** The hosted model behind the runtime: what it answers as a given agent,
    and which hand-off of an agent it picks (an index in [handoffs]).  Both
    are arbitrary; within one run of the script each agent is asked once. *)
Record Model := {
  respond : Agent -> string -> Reply FinalOutput;
  choose : Agent -> string -> Reply nat
}.

Inductive Event :=
| UiTitle (body : string)
| UiWrite (body : FinalOutput)
| UiSelectbox (label : string) (options : list string)
| UiTextInput (label : string) (password : bool)
| UiButton (label : string)
| SpinnerShown (text : string)
| SpinnerHidden
| Slept (seconds : nat)
| TraceFlushed
| RunStarted (agent_name : string) (input : string)
| Invoked (agent_name : string) (input : string).

Record World := {
  text_inputs : gmap string string;      (* widget values of this script run *)
  clicked : gset string;                 (* buttons pressed for this run *)
  environ : gmap string string;          (* os.environ *)
  tracing_export_api_key : option (option string);
  model : Model;
  log : list Event                       (* external effects, oldest first *)
}.

Abbreviation IO := (M World Abort).

(** The world after further external effects. *)
Definition logged (w : World) (evs : list Event) : World :=
  {| text_inputs := text_inputs w; clicked := clicked w;
     environ := environ w;
     tracing_export_api_key := tracing_export_api_key w;
     model := model w; log := log w ++ evs |}.

Definition emit (ev : Event) : IO unit := modify (fun w => logged w [ev]).

Definition throw {A} (e : Exn) : IO A := raise (Exception e).

(** **** streamlit *)

Definition st_title (body : string) : IO unit := emit (UiTitle body).

Definition st_write (body : FinalOutput) : IO unit := emit (UiWrite body).

Definition st_sidebar_selectbox (label : string) (options : list string)
  : IO (option string) :=
  (emit (UiSelectbox label options) ;; ret (head options))%py.

(** A text input returns its current value, the empty string while nothing
    has been entered. *)
Definition st_text_input (label : string) (password : bool) : IO string :=
  (emit (UiTextInput label password) ;;
   gets (fun w => default "" (text_inputs w !! label)))%py.

Definition st_sidebar_text_input := st_text_input.

Definition st_button (label : string) : IO bool :=
  (emit (UiButton label) ;;
   gets (fun w => bool_decide (label ∈ clicked w)))%py.

Definition st_spinner {A} (text : string) (body : IO A) : IO A :=
  with_block (emit (SpinnerShown text)) (emit SpinnerHidden) body.

(** **** os, time *)

Definition os_environ_set (key value : string) : IO unit :=
  modify (fun w =>
    {| text_inputs := text_inputs w; clicked := clicked w;
       environ := <[key := value]> (environ w);
       tracing_export_api_key := tracing_export_api_key w;
       model := model w; log := log w |}).

Definition os_getenv (key : string) : IO (option string) :=
  gets (fun w => environ w !! key).

Definition time_sleep (seconds : nat) : IO unit := emit (Slept seconds).

(** **** agents: tracing *)

Definition set_tracing_export_api_key (api_key : option string) : IO unit :=
  modify (fun w =>
    {| text_inputs := text_inputs w; clicked := clicked w;
       environ := environ w;
       tracing_export_api_key := Some api_key;
       model := model w; log := log w |}).

Definition force_flush : IO unit := emit TraceFlushed.

(** *** The agents of the script *)

Definition guardrail_agent : Agent :=
  {| name := "Guardrail Check";
     instructions := "Check if the user is asking about research.";
     handoff_description := None;
     handoffs := [];
     input_guardrails := [];
     output_type := Some ResearchOutputType |}.

Definition physics_research_agent : Agent :=
  {| name := "Physics Researcher";
     handoff_description := Some "Specialist agent for Physics Research";
     instructions := "You provide assistance with Physics Research. Explain your reasoning at each step
                    and include examples.";
     handoffs := [];
     input_guardrails := [];
     output_type := None |}.

Definition financial_research_agent : Agent :=
  {| name := "Financial Researcher";
     handoff_description := Some "Specialist agent for Financial Research";
     instructions := "You provide assistance with Financial Research. Explain important events and
                    context clearly";
     handoffs := [];
     input_guardrails := [];
     output_type := None |}.

(** [result.final_output_as(cls)] hands the final output on as it is. *)
Definition final_output_as (result : RunResult) (cls : OutputType)
  : FinalOutput :=
  final_output result.

(** [final_output.is_research]: an attribute of a [ResearchOutput] only. *)
Definition get_is_research (final_output : FinalOutput) : IO bool :=
  match final_output with
  | Structured r => ret (is_research r)
  | Text _ => throw (AttributeError "is_research")
  end.

Section guardrail.

(** [Runner.run], as the guardrail function finds it when it is called. *)
Variable Runner_run : Agent -> string -> option string -> IO RunResult.

Definition research_guardrail (ctx : RunContextWrapper) (agent : Agent)
    (input_data : string) : IO GuardrailFunctionOutput :=
  (result <- Runner_run guardrail_agent input_data (context ctx);
   let final_output := final_output_as result ResearchOutputType in
   research <- get_is_research final_output;
   ret {| output_info := final_output;
          tripwire_triggered := negb research |})%py.

Definition call_guardrail_function (f : GuardrailFunction)
  : RunContextWrapper -> Agent -> string -> IO GuardrailFunctionOutput :=
  match f with
  | research_guardrail_ref => research_guardrail
  end.

End guardrail.

Definition triage_agent : Agent :=
  {| name := "Triage Agent";
     instructions :=
       "You determine which agent to use based on user's research query.";
     handoff_description := None;
     handoffs := [physics_research_agent; financial_research_agent];
     input_guardrails :=
       [ {| guardrail_function := research_guardrail_ref |} ];
     output_type := None |}.

(** *** The agent runtime *)

(** The output of a model call has the shape that the agent declares. *)
Definition conforms (t : option OutputType) (o : FinalOutput) : bool :=
  match t, o with
  | None, Text _ => true
  | Some ResearchOutputType, Structured _ => true
  | _, _ => false
  end.

(** One call of the hosted model as [agent]. *)
Definition invoke (agent : Agent) (input : string) : IO FinalOutput :=
  (emit (Invoked (name agent) input) ;;
   reply <- gets (fun w => respond (model w) agent input);
   match reply with
   | Unavailable message => throw (RuntimeUnavailable message)
   | Replied o =>
       if conforms (output_type agent) o then ret o
       else throw (ModelBehaviorError (name agent))
   end)%py.

(** The hosted model picks one of the hand-offs of [agent]. *)
Definition select_handoff (agent : Agent) (input : string) : IO Agent :=
  (emit (Invoked (name agent) input) ;;
   reply <- gets (fun w => choose (model w) agent input);
   match reply with
   | Unavailable message => throw (RuntimeUnavailable message)
   | Replied i =>
       match handoffs agent !! i with
       | Some specialist => ret specialist
       | None => throw (ModelBehaviorError (name agent))
       end
   end)%py.

Section runtime.

Variable run : Agent -> string -> option string -> IO RunResult.

Fixpoint run_input_guardrails (agent : Agent) (input : string)
    (context : option string) (guardrails : list InputGuardrail)
  : IO unit :=
  match guardrails with
  | [] => ret tt
  | g :: rest =>
      (out <- call_guardrail_function run (guardrail_function g)
                {| context := context |} agent input;
       if tripwire_triggered out
       then throw (InputGuardrailTripwireTriggered
                     {| guardrail := g; output := out |})
       else run_input_guardrails agent input context rest)%py
  end.

End runtime.

(** Modelled from the spec: [Runner.run] of the agents library, the
    external runtime that is not among the sources.  Sections 4.2 and 6:
    the runtime first invokes the guardrails of the starting agent and
    aborts with the tripwire signal, carrying the guardrail's output, when
    one of them rejects; otherwise it selects and invokes exactly one of
    the configured hand-off agents and returns that agent's final
    response; an agent without hand-offs answers itself.  Failures of the
    hosted model propagate; nothing is retried.  [fuel] bounds the nesting
    of runs started from guardrail functions. *)
Fixpoint Runner_run (fuel : nat) (starting_agent : Agent) (input : string)
    (context : option string) : IO RunResult :=
  match fuel with
  | O => raise OutOfFuel
  | S fuel' =>
      (emit (RunStarted (name starting_agent) input) ;;
       run_input_guardrails (Runner_run fuel') starting_agent input context
         (input_guardrails starting_agent) ;;
       match handoffs starting_agent with
       | [] =>
           out <- invoke starting_agent input;
           ret {| final_output := out; last_agent := starting_agent |}
       | _ :: _ =>
           specialist <- select_handoff starting_agent input;
           out <- invoke specialist input;
           ret {| final_output := out; last_agent := specialist |}
       end)%py
  end.

(** *** The script *)

Section script.

Variable fuel : nat.

(** Lines 11 to 66: the module level up to the definition of [main]. *)
Definition prelude : IO unit :=
  (st_title "Locally Deployed AI Agent" ;;
   st_write
     (Text "This is a locally deployed AI agent then can assist in research") ;;
   add_selectbox <-
     st_sidebar_selectbox "Select the LLM provider" ["OpenAI"];
   openai_key <- st_sidebar_text_input "Enter your OpenAI Key" true;
   os_environ_set "OPENAI_API_KEY" openai_key ;;
   api_key <- os_getenv "OPENAI_API_KEY";
   set_tracing_export_api_key api_key ;;
   force_flush)%py.

Definition main : IO unit :=
  (user_input <- st_text_input "Enter your research query:" false;
   submit <- st_button "Submit";
   if (submit : bool) then
     st_spinner "Processing..." (time_sleep 10) ;;
     result <- Runner_run fuel triage_agent user_input None;
     st_write (final_output result)
   else ret tt)%py.

(** The whole file; [asyncio.run(main())] runs [main] to its end. *)
Definition script (dunder_name : string) : IO unit :=
  (prelude ;;
   if decide (dunder_name = "__main__") then main else ret tt)%py.

End script.

(** *** Observations *)

(** What the user has entered when the script runs. *)
Definition credential (w : World) : string :=
  default "" (text_inputs w !! "Enter your OpenAI Key").

Definition query (w : World) : string :=
  default "" (text_inputs w !! "Enter your research query:").

Definition submitted (w : World) : bool :=
  bool_decide ("Submit" ∈ clicked w).

(** The judgment of the Guardrail Evaluator on a query: the acceptance flag
    and the rationale that the hosted model returns as the guardrail agent,
    when it returns a well-formed one. *)
Definition classification (w : World) (q : string) : option ResearchOutput :=
  match respond (model w) guardrail_agent q with
  | Replied (Structured r) => Some r
  | _ => None
  end.

(** The tripwire signal of the input guardrail for a judgment [r]: it
    carries the evaluator's output, rationale included, as it was given. *)
Definition tripwire (r : ResearchOutput) : Exn :=
  InputGuardrailTripwireTriggered
    {| guardrail := {| guardrail_function := research_guardrail_ref |};
       output := {| output_info := Structured r;
                    tripwire_triggered := true |} |}.

(** What a route logs up to the verdict of the guardrail. *)
Definition guardrail_log (q : string) : list Event :=
  [RunStarted "Triage Agent" q; RunStarted "Guardrail Check" q;
   Invoked "Guardrail Check" q].

(** What the module level logs before [main]. *)
Definition prelude_log : list Event :=
  [UiTitle "Locally Deployed AI Agent";
   UiWrite
     (Text "This is a locally deployed AI agent then can assist in research");
   UiSelectbox "Select the LLM provider" ["OpenAI"];
   UiTextInput "Enter your OpenAI Key" true;
   TraceFlushed].

(** What [main] logs on a submit before it calls the runtime. *)
Definition submit_log : list Event :=
  [UiTextInput "Enter your research query:" false; UiButton "Submit";
   SpinnerShown "Processing..."; Slept 10; SpinnerHidden].

(** A computation that leaves the world as it is but for the log. *)
Definition only_logs {A} (m : IO A) : Prop :=
  forall w, exists evs, (m w).2 = logged w evs.

(** The calls of the hosted model as one of the specialist agents. *)
Definition is_specialist_call (ev : Event) : bool :=
  match ev with
  | Invoked agent_name _ =>
      bool_decide (agent_name ∈ name <$> handoffs triage_agent)
  | _ => false
  end.

Definition specialist_calls (evs : list Event) : list Event :=
  List.filter is_specialist_call evs.

(** The starts of the route operation, [Runner.run] on the triage agent. *)
Definition is_route_start (ev : Event) : bool :=
  match ev with
  | RunStarted agent_name _ => bool_decide (agent_name = name triage_agent)
  | _ => false
  end.

(** What the agent runtime does, as opposed to the UI toolkit. *)
Definition is_runtime_event (ev : Event) : bool :=
  match ev with
  | RunStarted _ _ | Invoked _ _ => true
  | _ => false
  end.

Definition is_write (ev : Event) : bool :=
  match ev with
  | UiWrite _ => true
  | _ => false
  end.

(** Whether every event of the agent runtime in a log happens while the
    busy indicator is shown; [shown] tells whether it is at the start. *)
Fixpoint busy_during_runtime (shown : bool) (evs : list Event) : bool :=
  match evs with
  | [] => true
  | SpinnerShown _ :: rest => busy_during_runtime true rest
  | SpinnerHidden :: rest => busy_during_runtime false rest
  | ev :: rest =>
      (if is_runtime_event ev then shown else true)
      && busy_during_runtime shown rest
  end.

(** The text of an exception.  The tripwire of an input guardrail has the
    fixed wording of the agents library, which names the guardrail class
    and nothing of the guardrail's output; a failure of the hosted model
    has the message it carries; the wording for an output of the wrong
    shape, which the library composes from that output, is shortened to
    the name of the agent. *)
Definition exception_text (e : Exn) : string :=
  match e with
  | InputGuardrailTripwireTriggered _ =>
      "Guardrail InputGuardrail triggered tripwire"
  | ModelBehaviorError agent_name => agent_name
  | RuntimeUnavailable message => message
  | AttributeError attribute =>
      "'str' object has no attribute '" +:+ attribute +:+ "'"
  end.

(** What the user sees of a run: the elements in the order of their
    rendering, and the error box of an exception that ended the run. *)
Record Page := {
  elements : list Event;
  error : option Exn
}.

(** Modelled from the spec: the script runner of the UI toolkit, which is
    not among the sources.  Sections 4.3 and 7: what the script renders is
    shown, and a failure that the script does not handle surfaces on the
    page as an error message, without suppression. *)
Definition page_of (run : IO unit) (w : World) : Page :=
  {| elements := added (log w) (log (run w).2);
     error := match (run w).1 with
              | Raise (Exception e) => Some e
              | _ => None
              end |}.

(** [needle] occurs in [text]. *)
Definition contains (needle text : string) : bool :=
  match String.index 0 needle text with
  | Some _ => true
  | None => false
  end.

(** A text occurs on a page: in an output that the script wrote, or in
    the message of the error box. *)
Definition shows (needle : string) (p : Page) : bool :=
  existsb (fun ev =>
             match ev with
             | UiWrite (Text body) => contains needle body
             | UiWrite (Structured r) => contains needle (reasoning r)
             | _ => false
             end) (elements p)
  || match error p with
     | Some e => contains needle (exception_text e)
     | None => false
     end.

(** Whether the busy indicator is shown after the events of a log;
    [shown] tells whether it is at the start. *)
Fixpoint spinner_after (shown : bool) (evs : list Event) : bool :=
  match evs with
  | [] => shown
  | SpinnerShown _ :: rest => spinner_after true rest
  | SpinnerHidden :: rest => spinner_after false rest
  | _ :: rest => spinner_after shown rest
  end.

(** An event of the agent runtime carries the input [q]. *)
Definition carries (q : string) (ev : Event) : Prop :=
  match ev with
  | RunStarted _ input | Invoked _ input => input = q
  | _ => True
  end.

(** The next run of the script in the same process: the toolkit runs the
    file again with the widget values and the buttons of the new
    interaction; the process environment, the tracing key and the log stay,
    and the hosted model may answer differently. *)
Definition rerun (w : World) (inputs : gmap string string)
    (pressed : gset string) (m : Model) : World :=
  {| text_inputs := inputs; clicked := pressed;
     environ := environ w;
     tracing_export_api_key := tracing_export_api_key w;
     model := m; log := log w |}.

(** *** Sample worlds *)

(** A hosted model whose guardrail agent judges every query with the flag
    [research], whose triage agent picks the second hand-off, and whose
    specialists answer with a text. *)
Definition sample_model (research : bool) : Model :=
  {| respond := fun agent q =>
       if decide (name agent = "Guardrail Check")
       then Replied (Structured {| is_research := research;
                                   reasoning := "judged by the sample" |})
       else Replied (Text ("answer of " +:+ name agent));
     choose := fun _ _ => Replied 1 |}.

(** A script run in which the user has entered the query [q] and pressed
    the button, before any credential has been entered. *)
Definition sample_world (research : bool) (q : string) : World :=
  {| text_inputs := {[ "Enter your research query:" := q ]};
     clicked := {[ "Submit" ]};
     environ := {[ "OPENAI_API_KEY" := "sk-previous" ; "HOME" := "/root" ]};
     tracing_export_api_key := None;
     model := sample_model research;
     log := [] |}.

(** A submit while the hosted model cannot be reached. *)
Definition offline_model : Model :=
  {| respond := fun _ _ => Unavailable "connection refused";
     choose := fun _ _ => Unavailable "connection refused" |}.

Definition offline_world (q : string) : World :=
  {| text_inputs := {[ "Enter your research query:" := q ]};
     clicked := {[ "Submit" ]};
     environ := ∅;
     tracing_export_api_key := None;
     model := offline_model;
     log := [] |}.

(** A submit that the guardrail accepts, after which the hosted model
    cannot be reached any more. *)
Definition stalled_model : Model :=
  {| respond := respond (sample_model true);
     choose := fun _ _ => Unavailable "connection lost" |}.

Definition stalled_world (q : string) : World :=
  {| text_inputs := {[ "Enter your research query:" := q ]};
     clicked := {[ "Submit" ]};
     environ := ∅;
     tracing_export_api_key := None;
     model := stalled_model;
     log := [] |}.

(** A run in which the button has not been pressed. *)
Definition idle_world (q : string) : World :=
  {| text_inputs := {[ "Enter your research query:" := q ]};
     clicked := ∅;
     environ := ∅;
     tracing_export_api_key := None;
     model := sample_model true;
     log := [] |}.

End App.

(** * Facts *)

Lemma added_app {A} (l k : list A) : added l (l ++ k) = k.
Proof. unfold added. by rewrite drop_app_length. Qed.

Lemma added_nil {A} (l : list A) : added l l = [].
Proof. unfold added. by rewrite drop_all. Qed.

(** ** The Parquet summary tool *)

Section ParquetFacts.
Import Parquet.

Lemma inside_spec (dir p : Path) :
  inside dir p = true <-> dir `prefix_of` p /\ p <> dir.
Proof. unfold inside. by rewrite bool_decide_eq_true. Qed.

(** The provider, case by case on the file that the argument names. *)
Lemma read_parquet_summary_outside decode describe filename w :
  inside DATA_DIR (resolve DATA_DIR filename) = false ->
  file_reader.read_parquet_summary decode describe filename w
  = (Raise (FileNotFound filename), w).
Proof. intros H. unfold file_reader.read_parquet_summary. by rewrite H. Qed.

Lemma read_parquet_summary_inside decode describe filename w :
  inside DATA_DIR (resolve DATA_DIR filename) = true ->
  file_reader.read_parquet_summary decode describe filename w
  = (match fs w !! resolve DATA_DIR filename with
     | None => Raise (FileNotFound filename)
     | Some bytes =>
         match decode bytes with
         | None => Raise (UnreadableFormat filename)
         | Some (rows, columns) => Return (describe filename rows columns)
         end
     end,
     {| fs := fs w; reads := reads w ++ [resolve DATA_DIR filename] |}).
Proof.
  intros H. unfold file_reader.read_parquet_summary. rewrite H.
  unfold bind, file_reader.open_read, bind, modify, gets; simpl.
  destruct (fs w !! resolve DATA_DIR filename) as [bytes|]; [|done].
  by destruct (decode bytes) as [[rows columns]|].
Qed.

(** The provider only reads: the files are the same after a call. *)
Lemma read_parquet_summary_fs decode describe filename w :
  fs (file_reader.read_parquet_summary decode describe filename w).2 = fs w.
Proof.
  destruct (inside DATA_DIR (resolve DATA_DIR filename)) eqn:H.
  - by rewrite read_parquet_summary_inside.
  - by rewrite read_parquet_summary_outside.
Qed.

(** C9: for every file name, [summaries_parquet_file filename] is exactly
    [read_parquet_summary filename], whatever the imported provider is:
    the same value or the same exception, and the same effects, so the
    tool validates and transforms nothing of its own; and it caches
    nothing: successive calls of the tool are successive calls of the
    provider. *)
Theorem summaries_parquet_file_passthrough
    (read_parquet_summary : string -> IO string) (filename : string)
    (w : World) :
  let tool := summaries_parquet_file read_parquet_summary in
  tool filename w = read_parquet_summary filename w
  /\ (forall e, (read_parquet_summary filename w).1 = Raise e ->
                (tool filename w).1 = Raise e)
  /\ (forall filename',
        (first <- tool filename;
         second <- tool filename';
         ret (first, second))%py w
        = (first <- read_parquet_summary filename;
           second <- read_parquet_summary filename';
           ret (first, second))%py w).
Proof.
  intros tool. subst tool. unfold summaries_parquet_file.
  split; [reflexivity|]. split.
  - intros e He. exact He.
  - intros filename'. reflexivity.
Qed.

(** C2: whatever the file name, every file that an invocation of the tool
    opens lies strictly below the data directory, and a summary is
    returned only for a name that denotes an existing file below it. *)
Theorem summaries_parquet_file_confined
    (decode : list byte -> option (nat * nat))
    (describe : string -> nat -> nat -> string)
    (filename : string) (w : World) :
  let run :=
    summaries_parquet_file
      (file_reader.read_parquet_summary decode describe) filename w in
  Forall (fun p => DATA_DIR `prefix_of` p /\ p <> DATA_DIR)
         (added (reads w) (reads run.2))
  /\ (forall text, run.1 = Return text ->
        (DATA_DIR `prefix_of` resolve DATA_DIR filename
         /\ resolve DATA_DIR filename <> DATA_DIR)
        /\ is_Some (fs w !! resolve DATA_DIR filename)).
Proof.
  intros run. subst run. unfold summaries_parquet_file.
  destruct (inside DATA_DIR (resolve DATA_DIR filename)) eqn:H.
  - rewrite read_parquet_summary_inside by done. simpl.
    rewrite added_app. apply inside_spec in H. split.
    + by constructor.
    + intros text Htext. split; [done|].
      destruct (fs w !! resolve DATA_DIR filename); [eauto | done].
  - rewrite read_parquet_summary_outside by done. simpl.
    rewrite added_nil. split; [constructor | done].
Qed.

(** C3: a file name that names no existing file makes the tool fail with
    FileNotFound, and the protocol receives it as an error result; an
    existing file that the decoder rejects makes it fail with
    UnreadableFormat. *)
Theorem summaries_parquet_file_failures
    (decode : list byte -> option (nat * nat))
    (describe : string -> nat -> nat -> string)
    (filename : string) (w : World) :
  let provider := file_reader.read_parquet_summary decode describe in
  let call :=
    call_tool (server_tool decode describe)
              {[ "filename" := ArgString filename ]} w in
  (named_file w filename = None ->
     (summaries_parquet_file provider filename w).1
     = Raise (FileNotFound filename)
     /\ call.1 = ToolError (FileNotFound filename))
  /\ (forall bytes,
        named_file w filename = Some bytes -> decode bytes = None ->
        (summaries_parquet_file provider filename w).1
        = Raise (UnreadableFormat filename)
        /\ call.1 = ToolError (UnreadableFormat filename)).
Proof.
  intros provider call. subst provider call.
  unfold call_tool, server_tool, mcp_tool, summaries_parquet_file; simpl.
  rewrite lookup_singleton_eq. unfold named_file.
  destruct (inside DATA_DIR (resolve DATA_DIR filename)) eqn:H.
  - rewrite read_parquet_summary_inside by done. split.
    + by intros ->.
    + intros bytes -> Hdec. by rewrite Hdec.
  - rewrite read_parquet_summary_outside by done. split; [done|].
    intros bytes Hbytes. discriminate.
Qed.

(** C6: two successive calls of the tool on the same name return the same
    result and leave the files as they were; nothing is cached: each of
    the two calls opens the file again, and a call is answered from the
    files as they are when it is made. *)
Theorem summaries_parquet_file_idempotent
    (decode : list byte -> option (nat * nat))
    (describe : string -> nat -> nat -> string)
    (filename : string) (w : World) :
  let tool :=
    summaries_parquet_file
      (file_reader.read_parquet_summary decode describe) in
  let first := tool filename w in
  let second := tool filename first.2 in
  second.1 = first.1
  /\ fs second.2 = fs w
  /\ added (reads w) (reads first.2)
     = added (reads first.2) (reads second.2)
  /\ (inside DATA_DIR (resolve DATA_DIR filename) = true ->
      reads second.2
      = reads w ++ [resolve DATA_DIR filename; resolve DATA_DIR filename])
  /\ (forall w', named_file w' filename = named_file w filename ->
      (tool filename w').1 = first.1).
Proof.
  intros tool first second. subst tool first second.
  unfold summaries_parquet_file.
  destruct (inside DATA_DIR (resolve DATA_DIR filename)) eqn:H.
  - rewrite !read_parquet_summary_inside by done. simpl.
    rewrite !added_app. repeat split; try done.
    + intros _. by rewrite <- app_assoc.
    + intros w'. rewrite read_parquet_summary_inside by done.
      unfold named_file. rewrite H. simpl. by intros ->.
  - rewrite !read_parquet_summary_outside by done. simpl.
    rewrite !added_nil. repeat split; try done.
    intros w' _. by rewrite read_parquet_summary_outside.
Qed.

(** The sample tool on the sample files: a summary for the valid file,
    and no way up to the file above the data directory. *)
Lemma summaries_parquet_file_confined_sample :
  (sample_tool "sample.parquet" sample_world).1
  = Return "sample.parquet: 5 rows, 3 columns"
  /\ (sample_tool "../secret.parquet" sample_world).1
     = Raise (FileNotFound "../secret.parquet")
  /\ Forall (fun p => DATA_DIR `prefix_of` p /\ p <> DATA_DIR)
       (reads (sample_tool "../secret.parquet" sample_world).2)
  /\ Forall (fun p => DATA_DIR `prefix_of` p /\ p <> DATA_DIR)
       (reads (sample_tool "sub/../sample.parquet" sample_world).2).
Proof.
  split; [reflexivity|]. split; [reflexivity|]. split.
  - exact (proj1 (summaries_parquet_file_confined sample_decode
                    sample_describe "../secret.parquet" sample_world)).
  - exact (proj1 (summaries_parquet_file_confined sample_decode
                    sample_describe "sub/../sample.parquet" sample_world)).
Defined.

Lemma summaries_parquet_file_failures_sample :
  (call_tool (server_tool sample_decode sample_describe)
     {[ "filename" := ArgString "missing.parquet" ]} sample_world).1
  = ToolError (FileNotFound "missing.parquet")
  /\ (call_tool (server_tool sample_decode sample_describe)
        {[ "filename" := ArgString "notes.txt" ]} sample_world).1
     = ToolError (UnreadableFormat "notes.txt").
Proof.
  split.
  - apply (summaries_parquet_file_failures sample_decode sample_describe
             "missing.parquet" sample_world). reflexivity.
  - apply (summaries_parquet_file_failures sample_decode sample_describe
             "notes.txt" sample_world) with (bytes := [x68]%byte);
      reflexivity.
Defined.

Lemma summaries_parquet_file_idempotent_sample :
  (sample_tool "sample.parquet"
     (sample_tool "sample.parquet" sample_world).2).1
  = (sample_tool "sample.parquet" sample_world).1
  /\ reads (sample_tool "sample.parquet"
              (sample_tool "sample.parquet" sample_world).2).2
     = [["data"; "sample.parquet"]; ["data"; "sample.parquet"]].
Proof.
  destruct (summaries_parquet_file_idempotent sample_decode sample_describe
              "sample.parquet" sample_world) as (Hsame & _ & _ & Hreads & _).
  split; [exact Hsame | exact (Hreads eq_refl)].
Defined.

End ParquetFacts.

(** ** The research-query front-end *)

Section AppFacts.
Import App.

Lemma logged_nil w : logged w [] = w.
Proof. destruct w. unfold logged. simpl. by rewrite app_nil_r. Qed.

Lemma logged_logged w evs evs' :
  logged (logged w evs) evs' = logged w (evs ++ evs').
Proof. unfold logged. simpl. by rewrite app_assoc. Qed.

Lemma added_logged w evs : added (log w) (log (logged w evs)) = evs.
Proof. apply added_app. Qed.

(** *** The runtime only adds to the log *)

Lemma only_logs_ret {A} (a : A) : only_logs (ret a).
Proof. intros w. exists []. by rewrite logged_nil. Qed.

Lemma only_logs_raise {A} (e : Abort) : only_logs (raise e : IO A).
Proof. intros w. exists []. by rewrite logged_nil. Qed.

Lemma only_logs_gets {A} (f : World -> A) : only_logs (gets f).
Proof. intros w. exists []. by rewrite logged_nil. Qed.

Lemma only_logs_emit ev : only_logs (emit ev).
Proof. intros w. by exists [ev]. Qed.

Lemma only_logs_bind {A B} (m : IO A) (k : A -> IO B) :
  only_logs m -> (forall a, only_logs (k a)) -> only_logs (bind m k).
Proof.
  intros Hm Hk w. unfold bind. destruct (Hm w) as [evs Hevs].
  destruct (m w) as [[a|e] w1]; simpl in *; subst w1.
  - destruct (Hk a (logged w evs)) as [evs' ->].
    exists (evs ++ evs'). apply logged_logged.
  - by exists evs.
Qed.

Lemma only_logs_with_block {A} (enter exit : IO unit) (body : IO A) :
  only_logs enter -> only_logs exit -> only_logs body ->
  only_logs (with_block enter exit body).
Proof.
  intros Henter Hexit Hbody. unfold with_block.
  apply only_logs_bind; [done|]. intros _ w.
  destruct (Hbody w) as [evs Hevs].
  destruct (body w) as [[a|e] w1]; simpl in *; subst w1.
  - destruct (only_logs_bind (B:=A) exit (fun _ => ret a) Hexit
                (fun _ => only_logs_ret a) (logged w evs)) as [evs' ->].
    exists (evs ++ evs'). apply logged_logged.
  - destruct (only_logs_bind (B:=A) exit (fun _ => raise e) Hexit
                (fun _ => only_logs_raise e) (logged w evs)) as [evs' ->].
    exists (evs ++ evs'). apply logged_logged.
Qed.

Lemma only_logs_invoke agent input : only_logs (invoke agent input).
Proof.
  unfold invoke. apply only_logs_bind; [apply only_logs_emit|]. intros _.
  apply only_logs_bind; [apply only_logs_gets|]. intros [o|message].
  - destruct (conforms _ _); [apply only_logs_ret | apply only_logs_raise].
  - apply only_logs_raise.
Qed.

Lemma only_logs_select_handoff agent input :
  only_logs (select_handoff agent input).
Proof.
  unfold select_handoff.
  apply only_logs_bind; [apply only_logs_emit|]. intros _.
  apply only_logs_bind; [apply only_logs_gets|]. intros [i|message].
  - destruct (handoffs agent !! i);
      [apply only_logs_ret | apply only_logs_raise].
  - apply only_logs_raise.
Qed.

Lemma only_logs_research_guardrail run ctx agent input :
  (forall a i c, only_logs (run a i c)) ->
  only_logs (research_guardrail run ctx agent input).
Proof.
  intros Hrun. unfold research_guardrail.
  apply only_logs_bind; [apply Hrun|]. intros result.
  apply only_logs_bind.
  - unfold get_is_research.
    destruct (final_output_as _ _); [apply only_logs_raise | apply only_logs_ret].
  - intros research. apply only_logs_ret.
Qed.

Lemma only_logs_run_input_guardrails run agent input ctx guardrails :
  (forall a i c, only_logs (run a i c)) ->
  only_logs (run_input_guardrails run agent input ctx guardrails).
Proof.
  intros Hrun. induction guardrails as [|g rest IH]; simpl.
  - apply only_logs_ret.
  - apply only_logs_bind.
    + destruct (guardrail_function g). simpl.
      by apply only_logs_research_guardrail.
    + intros out. destruct (tripwire_triggered out);
        [apply only_logs_raise | apply IH].
Qed.

Lemma only_logs_Runner_run fuel agent input ctx :
  only_logs (Runner_run fuel agent input ctx).
Proof.
  revert agent input ctx.
  induction fuel as [|fuel IH]; intros agent input ctx; simpl.
  - apply only_logs_raise.
  - apply only_logs_bind; [apply only_logs_emit|]. intros _.
    apply only_logs_bind;
      [by apply only_logs_run_input_guardrails|]. intros _.
    destruct (handoffs agent).
    + apply only_logs_bind; [apply only_logs_invoke|]. intros out.
      apply only_logs_ret.
    + apply only_logs_bind; [apply only_logs_select_handoff|].
      intros specialist.
      apply only_logs_bind; [apply only_logs_invoke|]. intros out.
      apply only_logs_ret.
Qed.

Lemma only_logs_main fuel : only_logs (main fuel).
Proof.
  unfold main.
  apply only_logs_bind.
  { unfold st_text_input. apply only_logs_bind; [apply only_logs_emit|].
    intros _. apply only_logs_gets. }
  intros user_input. apply only_logs_bind.
  { unfold st_button. apply only_logs_bind; [apply only_logs_emit|].
    intros _. apply only_logs_gets. }
  intros [|]; [|apply only_logs_ret].
  apply only_logs_bind.
  { apply only_logs_with_block; apply only_logs_emit. }
  intros _. apply only_logs_bind; [apply only_logs_Runner_run|].
  intros result. apply only_logs_emit.
Qed.

(** *** The runs of the script's agents *)

Local Arguments Runner_run : simpl never.

Ltac run_io :=
  repeat (progress (unfold bind, emit, modify, gets, ret, raise, throw;
                    simpl)).

Lemma logged_cons w ev evs :
  logged (logged w [ev]) evs = logged w (ev :: evs).
Proof. apply logged_logged. Qed.

Lemma Runner_run_S fuel agent q ctx :
  Runner_run (S fuel) agent q ctx
  = (emit (RunStarted (name agent) q) ;;
     run_input_guardrails (Runner_run fuel) agent q ctx
       (input_guardrails agent) ;;
     match handoffs agent with
     | [] =>
         out <- invoke agent q;
         ret {| final_output := out; last_agent := agent |}
     | _ :: _ =>
         specialist <- select_handoff agent q;
         out <- invoke specialist q;
         ret {| final_output := out; last_agent := specialist |}
     end)%py.
Proof. reflexivity. Qed.

Lemma Runner_run_guardrail_agent n q ctx w :
  Runner_run (S n) guardrail_agent q ctx w
  = (match respond (model w) guardrail_agent q with
     | Replied (Structured r) =>
         Return {| final_output := Structured r;
                   last_agent := guardrail_agent |}
     | Replied (Text _) =>
         Raise (Exception (ModelBehaviorError "Guardrail Check"))
     | Unavailable message =>
         Raise (Exception (RuntimeUnavailable message))
     end,
     logged w [RunStarted "Guardrail Check" q;
               Invoked "Guardrail Check" q]).
Proof.
  rewrite Runner_run_S. unfold invoke. run_io.
  destruct (respond (model w) guardrail_agent q) as [[s|r]|message];
    simpl; by rewrite logged_cons.
Qed.

Lemma classification_Some w q r :
  classification w q = Some r ->
  respond (model w) guardrail_agent q = Replied (Structured r).
Proof.
  unfold classification.
  destruct (respond (model w) guardrail_agent q) as [[s|r']|message];
    congruence.
Qed.

(** The guardrail function on a classified query: the evaluator's output
    is handed on as it is, and the tripwire is the negated flag. *)
Lemma research_guardrail_classified n ctx agent q w r :
  classification w q = Some r ->
  research_guardrail (Runner_run (S n)) ctx agent q w
  = (Return {| output_info := Structured r;
               tripwire_triggered := negb (is_research r) |},
     logged w [RunStarted "Guardrail Check" q;
               Invoked "Guardrail Check" q]).
Proof.
  intros Hr. apply classification_Some in Hr.
  unfold research_guardrail, bind at 1.
  rewrite Runner_run_guardrail_agent, Hr. reflexivity.
Qed.

(** Without a well-formed classification the guardrail function fails. *)
Lemma research_guardrail_unclassified n ctx agent q w :
  classification w q = None ->
  exists e,
    research_guardrail (Runner_run (S n)) ctx agent q w
    = (Raise (Exception e),
       logged w [RunStarted "Guardrail Check" q;
                 Invoked "Guardrail Check" q])
    /\ (e = ModelBehaviorError "Guardrail Check"
        \/ exists message, e = RuntimeUnavailable message).
Proof.
  unfold classification. intros Hc.
  unfold research_guardrail, bind at 1.
  rewrite Runner_run_guardrail_agent.
  destruct (respond (model w) guardrail_agent q) as [[s|r]|message];
    [| discriminate |]; eauto.
Qed.

Lemma run_input_guardrails_one run agent q ctx g w :
  run_input_guardrails run agent q ctx [g] w
  = match call_guardrail_function run (guardrail_function g)
            {| context := ctx |} agent q w with
    | (Return out, w') =>
        if tripwire_triggered out
        then (Raise (Exception (InputGuardrailTripwireTriggered
                                  {| guardrail := g; output := out |})),
              w')
        else (Return tt, w')
    | (Raise e, w') => (Raise e, w')
    end.
Proof.
  simpl. unfold bind.
  destruct (call_guardrail_function _ _ _ _ _ _) as [[out|e] w']; [|done].
  by destruct (tripwire_triggered out).
Qed.

(** The route up to the verdict: the guardrail function runs first. *)
Lemma route_gate n q ctx w :
  Runner_run (S (S n)) triage_agent q ctx w
  = match research_guardrail (Runner_run (S n)) {| context := ctx |}
            triage_agent q (logged w [RunStarted "Triage Agent" q]) with
    | (Return out, w') =>
        if tripwire_triggered out
        then (Raise (Exception (InputGuardrailTripwireTriggered
                 {| guardrail :=
                      {| guardrail_function := research_guardrail_ref |};
                    output := out |})), w')
        else (specialist <- select_handoff triage_agent q;
              out <- invoke specialist q;
              ret {| final_output := out; last_agent := specialist |})%py
               w'
    | (Raise e, w') => (Raise e, w')
    end.
Proof.
  rewrite Runner_run_S. unfold bind at 1, emit at 1, modify.
  cbv beta iota. unfold bind at 1. simpl (input_guardrails _).
  rewrite run_input_guardrails_one. simpl (call_guardrail_function _ _).
  destruct (research_guardrail _ _ _ _ _) as [[out|e] w']; [|done].
  by destruct (tripwire_triggered out).
Qed.

Lemma route_rejected n q ctx w r :
  classification w q = Some r -> is_research r = false ->
  Runner_run (S (S n)) triage_agent q ctx w
  = (Raise (Exception (tripwire r)), logged w (guardrail_log q)).
Proof.
  intros Hr Hflag. rewrite route_gate.
  rewrite research_guardrail_classified with (r := r) by done.
  simpl. rewrite Hflag. simpl. by rewrite logged_cons.
Qed.

Lemma route_unclassified n q ctx w :
  classification w q = None ->
  exists e,
    Runner_run (S (S n)) triage_agent q ctx w
    = (Raise (Exception e), logged w (guardrail_log q))
    /\ (e = ModelBehaviorError "Guardrail Check"
        \/ exists message, e = RuntimeUnavailable message).
Proof.
  intros Hc. rewrite route_gate.
  destruct (research_guardrail_unclassified n {| context := ctx |}
              triage_agent q (logged w [RunStarted "Triage Agent" q]) Hc)
    as (e & -> & He).
  exists e. by rewrite logged_cons.
Qed.

(** The hand-off once the guardrail has accepted. *)
Lemma dispatch q w :
  (specialist <- select_handoff triage_agent q;
   out <- invoke specialist q;
   ret {| final_output := out; last_agent := specialist |})%py w
  = match choose (model w) triage_agent q with
    | Unavailable message =>
        (Raise (Exception (RuntimeUnavailable message)),
         logged w [Invoked "Triage Agent" q])
    | Replied i =>
        match handoffs triage_agent !! i with
        | None =>
            (Raise (Exception (ModelBehaviorError "Triage Agent")),
             logged w [Invoked "Triage Agent" q])
        | Some specialist =>
            (match respond (model w) specialist q with
             | Replied (Text answer) =>
                 Return {| final_output := Text answer;
                           last_agent := specialist |}
             | Replied (Structured _) =>
                 Raise (Exception (ModelBehaviorError (name specialist)))
             | Unavailable message =>
                 Raise (Exception (RuntimeUnavailable message))
             end,
             logged w [Invoked "Triage Agent" q;
                       Invoked (name specialist) q])
        end
    end.
Proof.
  unfold select_handoff, invoke. run_io.
  destruct (choose (model w) triage_agent q) as [i|message]; [|done].
  destruct i as [|[|i]]; simpl.
  - destruct (respond (model w) physics_research_agent q)
      as [[answer|r]|message]; simpl; by rewrite logged_cons.
  - destruct (respond (model w) financial_research_agent q)
      as [[answer|r]|message]; simpl; by rewrite logged_cons.
  - done.
Qed.

Lemma route_accepted n q ctx w r :
  classification w q = Some r -> is_research r = true ->
  Runner_run (S (S n)) triage_agent q ctx w
  = (specialist <- select_handoff triage_agent q;
     out <- invoke specialist q;
     ret {| final_output := out; last_agent := specialist |})%py
      (logged w (guardrail_log q)).
Proof.
  intros Hr Hflag. rewrite route_gate.
  rewrite research_guardrail_classified with (r := r) by done.
  simpl tripwire_triggered. rewrite Hflag. simpl negb. cbv iota.
  by rewrite logged_cons.
Qed.

(** Two units of fuel are enough for the route: more fuel changes nothing,
    and the route never stops for lack of it. *)
Lemma route_fuel n q ctx w :
  Runner_run (S (S n)) triage_agent q ctx w
  = Runner_run 2 triage_agent q ctx w.
Proof.
  rewrite !route_gate. unfold research_guardrail, bind.
  by rewrite !Runner_run_guardrail_agent.
Qed.

Lemma route_not_out_of_fuel n q ctx w :
  (Runner_run (S (S n)) triage_agent q ctx w).1 <> Raise OutOfFuel.
Proof.
  destruct (classification w q) as [r|] eqn:Hc.
  - destruct (is_research r) eqn:Hflag.
    + rewrite (route_accepted n q ctx w r Hc Hflag), dispatch.
      destruct (choose _ _ _) as [i|message]; [|done].
      destruct (handoffs triage_agent !! i) as [specialist|]; [|done].
      by destruct (respond _ specialist _) as [[answer|r']|message].
    + by rewrite (route_rejected n q ctx w r Hc Hflag).
  - by destruct (route_unclassified n q ctx w Hc) as (e & -> & _).
Qed.

(** Every route logs the gate and then at most the selection and the
    call of one specialist. *)
Lemma route_log n q ctx w :
  exists evs,
    (Runner_run (S (S n)) triage_agent q ctx w).2
    = logged w (guardrail_log q ++ evs)
    /\ (evs = []
        \/ evs = [Invoked "Triage Agent" q]
        \/ exists specialist,
             specialist ∈ handoffs triage_agent
             /\ evs = [Invoked "Triage Agent" q;
                       Invoked (name specialist) q]).
Proof.
  destruct (classification w q) as [r|] eqn:Hc.
  - destruct (is_research r) eqn:Hflag.
    + rewrite (route_accepted n q ctx w r Hc Hflag), dispatch.
      simpl (model _).
      destruct (choose (model w) triage_agent q) as [i|message].
      * destruct (handoffs triage_agent !! i) as [specialist|] eqn:Hi.
        -- exists [Invoked "Triage Agent" q; Invoked (name specialist) q].
           simpl. rewrite logged_logged. split; [done|].
           right; right. exists specialist. split; [|done].
           by apply list_elem_of_lookup_2 in Hi.
        -- exists [Invoked "Triage Agent" q]. simpl.
           rewrite logged_logged. auto.
      * exists [Invoked "Triage Agent" q]. simpl.
        rewrite logged_logged. auto.
    + rewrite (route_rejected n q ctx w r Hc Hflag). exists [].
      rewrite app_nil_r. auto.
  - destruct (route_unclassified n q ctx w Hc) as (e & -> & _).
    exists []. rewrite app_nil_r. auto.
Qed.

(** *** [main] *)

Lemma main_submitted fuel w :
  submitted w = true ->
  main fuel w
  = match Runner_run fuel triage_agent (query w) None
            (logged w submit_log) with
    | (Return result, w') =>
        (Return tt, logged w' [UiWrite (final_output result)])
    | (Raise e, w') => (Raise e, w')
    end.
Proof.
  unfold submitted, query. intros Hsubmit.
  unfold main, st_text_input, st_button, st_spinner, with_block,
    time_sleep, st_write.
  run_io. rewrite Hsubmit. run_io. rewrite !logged_cons.
  by destruct (Runner_run _ _ _ _ _) as [[result|e] w'].
Qed.

Lemma main_idle fuel w :
  submitted w = false ->
  main fuel w
  = (Return tt,
     logged w [UiTextInput "Enter your research query:" false;
               UiButton "Submit"]).
Proof.
  unfold submitted. intros Hsubmit.
  unfold main, st_text_input, st_button. run_io. rewrite Hsubmit.
  run_io. by rewrite !logged_cons.
Qed.

(** *** The gate *)

(** C1, as it is stated, fails: the rationale of a rejection is not
    surfaced to the user.  On the sample world that rejects, the text of
    the evaluator's rationale occurs nowhere on the page of the submit. *)
Lemma rejection_rationale_not_shown :
  ~ (forall n w r,
       submitted w = true ->
       classification w (query w) = Some r -> is_research r = false ->
       shows (reasoning r) (page_of (main (2 + n)) w) = true).
Proof.
  intros H.
  specialize (H 0 (sample_world false "lunch?")
                {| is_research := false;
                   reasoning := "judged by the sample" |}
                eq_refl eq_refl eq_refl).
  vm_compute in H. discriminate.
Qed.

(** C1, amended: when the Guardrail Evaluator rejects a query, the route
    aborts with the tripwire signal, which carries the evaluator's output
    and its rationale unchanged, and no specialist agent has been invoked.
    The rationale is not shown: [main] does not handle the signal, so a
    submit ends with it and writes nothing, and the page shows the error
    box of the tripwire, whose message is the same fixed text whatever
    the rationale.  A route returns a result only for a query that the
    evaluator has accepted. *)
Theorem guardrail_rejection_aborts_route
    (n : nat) (q : string) (ctx : option string) (w : World) :
  let route := Runner_run (2 + n) triage_agent q ctx w in
  let submit := main (2 + n) w in
  let page := page_of (main (2 + n)) w in
  (forall r,
     classification w q = Some r -> is_research r = false ->
     route.1 = Raise (Exception (tripwire r))
     /\ (exists g,
          route.1 = Raise (Exception (InputGuardrailTripwireTriggered g))
          /\ output_info (output g) = Structured r)
     /\ specialist_calls (added (log w) (log route.2)) = [])
  /\ (forall r,
        submitted w = true ->
        classification w (query w) = Some r -> is_research r = false ->
        submit.1 = Raise (Exception (tripwire r))
        /\ specialist_calls (added (log w) (log submit.2)) = []
        /\ List.filter is_write (added (log w) (log submit.2)) = []
        /\ error page = Some (tripwire r)
        /\ exception_text (tripwire r)
           = "Guardrail InputGuardrail triggered tripwire"
        /\ (forall needle,
              shows needle page
              = contains needle
                  "Guardrail InputGuardrail triggered tripwire"))
  /\ (forall result,
        route.1 = Return result ->
        exists r, classification w q = Some r /\ is_research r = true).
Proof.
  intros route submit page. subst route submit page. simpl (2 + n).
  split; [|split].
  - intros r Hr Hflag. rewrite (route_rejected n q ctx w r Hr Hflag).
    cbn [fst snd]. rewrite added_logged. split; [done|]. split; [|done].
    by eexists.
  - intros r Hsubmit Hr Hflag. unfold page_of, shows.
    rewrite main_submitted by done.
    rewrite (route_rejected n (query w) None (logged w submit_log) r)
      by done.
    cbn [fst snd elements error]. rewrite logged_logged, added_logged.
    done.
  - intros result Hreturn.
    destruct (classification w q) as [r|] eqn:Hc.
    + exists r. split; [done|]. destruct (is_research r) eqn:Hflag; [done|].
      rewrite (route_rejected n q ctx w r Hc Hflag) in Hreturn.
      discriminate.
    + destruct (route_unclassified n q ctx w Hc) as (e & He & _).
      rewrite He in Hreturn. discriminate.
Qed.

(** On the sample world that rejects, a submit of a query ends with the
    tripwire and the rationale of the sample evaluator, and the page
    shows the error box of the tripwire. *)
Lemma guardrail_rejection_sample :
  (main 2 (sample_world false "lunch?")).1
  = Raise (Exception (tripwire {| is_research := false;
                                  reasoning := "judged by the sample" |}))
  /\ specialist_calls (log (main 2 (sample_world false "lunch?")).2) = []
  /\ error (page_of (main 2) (sample_world false "lunch?"))
     = Some (tripwire {| is_research := false;
                         reasoning := "judged by the sample" |}).
Proof.
  pose proof (guardrail_rejection_aborts_route 0 "lunch?" None
                (sample_world false "lunch?")) as (_ & H & _).
  destruct (H {| is_research := false;
                 reasoning := "judged by the sample" |})
    as (Hout & Hcalls & _ & Herror & _); [reflexivity..|].
  split; [exact Hout|]. split; [exact Hcalls | exact Herror].
Defined.

(** *** The hand-off *)

Lemma specialist_is_one_of specialist :
  specialist ∈ handoffs triage_agent ->
  specialist = physics_research_agent
  \/ specialist = financial_research_agent.
Proof.
  simpl. rewrite !elem_of_cons, elem_of_nil. tauto.
Qed.

(** C4, as it is stated, fails: an accepted query does not always get a
    specialist.  On the sample world in which the hosted model is lost
    after the guardrail has accepted, no specialist is invoked. *)
Lemma accepted_query_without_specialist :
  ~ (forall n w r,
       submitted w = true ->
       classification w (query w) = Some r -> is_research r = true ->
       length (specialist_calls (added (log w) (log (main (2 + n) w).2)))
       = 1).
Proof.
  intros H.
  specialize (H 0 (stalled_world "quarks?")
                {| is_research := true;
                   reasoning := "judged by the sample" |}
                eq_refl eq_refl eq_refl).
  vm_compute in H. discriminate.
Qed.

(** C4, amended: on a submit of a query that the Guardrail Evaluator
    accepts, at most one specialist agent, of the two configured, is ever
    invoked; when the hosted model hands off to one of the two and that
    specialist answers, the submit completes, the specialist is the only
    one invoked, and its answer is the one text rendered; when the submit
    fails, no response is rendered. *)
Theorem accepted_query_one_specialist (n : nat) (w : World) (r : ResearchOutput) :
  submitted w = true ->
  classification w (query w) = Some r -> is_research r = true ->
  let submit := main (2 + n) w in
  let evs := added (log w) (log submit.2) in
  length (handoffs triage_agent) = 2
  /\ length (specialist_calls evs) <= 1
  /\ (forall i specialist answer,
        choose (model w) triage_agent (query w) = Replied i ->
        handoffs triage_agent !! i = Some specialist ->
        respond (model w) specialist (query w) = Replied (Text answer) ->
        submit.1 = Return tt
        /\ specialist_calls evs = [Invoked (name specialist) (query w)]
        /\ List.filter is_write evs = [UiWrite (Text answer)])
  /\ (forall e, submit.1 = Raise e -> List.filter is_write evs = []).
Proof.
  intros Hsubmit Hr Hflag submit evs. subst evs submit. simpl (2 + n).
  rewrite main_submitted by done.
  rewrite (route_accepted n (query w) None (logged w submit_log) r)
    by done.
  rewrite dispatch. simpl (model _). set (q := query w).
  split; [done|].
  destruct (choose (model w) triage_agent q) as [i|message].
  - destruct (handoffs triage_agent !! i) as [specialist|] eqn:Hi.
    + assert (specialist ∈ handoffs triage_agent) as Hin
        by (by apply list_elem_of_lookup_2 in Hi).
      assert (forall i' specialist',
                 Replied i = Replied i' ->
                 handoffs triage_agent !! i' = Some specialist' ->
                 specialist' = specialist) as Hsame.
      { intros i' specialist' [= <-] Hi'. congruence. }
      destruct (respond (model w) specialist q) as [[answer|r']|message]
        eqn:Hanswer; cbn [fst snd];
        rewrite !logged_logged, added_logged;
        (split; [by destruct (specialist_is_one_of _ Hin) as [-> | ->]|]);
        (split;
           [intros i' specialist' answer' Hi' Hsp';
            rewrite (Hsame _ _ Hi' Hsp'), Hanswer; intros [= <-]
           |]).
      * by destruct (specialist_is_one_of _ Hin) as [-> | ->].
      * intros e He. discriminate.
      * intros e _. reflexivity.
      * intros e _. reflexivity.
    + cbn [fst snd]. rewrite !logged_logged, added_logged.
      split; [simpl; lia|]. split; [|done].
      intros i' specialist' answer' [= <-] Hi'. congruence.
  - cbn [fst snd]. rewrite !logged_logged, added_logged.
    split; [simpl; lia|]. split; [|done].
    intros i' specialist' answer' Hi'. discriminate.
Qed.

Lemma accepted_query_sample :
  (main 2 (sample_world true "quarks?")).1 = Return tt
  /\ specialist_calls (log (main 2 (sample_world true "quarks?")).2)
     = [Invoked "Financial Researcher" "quarks?"]
  /\ List.filter is_write (log (main 2 (sample_world true "quarks?")).2)
     = [UiWrite (Text "answer of Financial Researcher")].
Proof.
  pose proof (accepted_query_one_specialist 0
                (sample_world true "quarks?")
                {| is_research := true;
                   reasoning := "judged by the sample" |}
                eq_refl eq_refl eq_refl) as (_ & _ & H & _).
  exact (H 1 financial_research_agent "answer of Financial Researcher"
           eq_refl eq_refl eq_refl).
Defined.

(** *** The submit *)

(** The log of a submit: the widgets, the busy indicator around the
    delay, the route, and the rendering of its result if there is one. *)
Lemma submit_log_shape n w :
  submitted w = true ->
  let route :=
    Runner_run (S (S n)) triage_agent (query w) None
      (logged w submit_log) in
  exists route_evs,
    (route_evs = []
     \/ route_evs = [Invoked "Triage Agent" (query w)]
     \/ exists specialist,
          specialist ∈ handoffs triage_agent
          /\ route_evs = [Invoked "Triage Agent" (query w);
                          Invoked (name specialist) (query w)])
    /\ route.2
       = logged (logged w submit_log) (guardrail_log (query w) ++ route_evs)
    /\ main (S (S n)) w
       = match route.1 with
         | Return result =>
             (Return tt,
              logged w (submit_log
                        ++ (guardrail_log (query w) ++ route_evs)
                        ++ [UiWrite (final_output result)]))
         | Raise e =>
             (Raise e,
              logged w (submit_log
                        ++ (guardrail_log (query w) ++ route_evs) ++ []))
         end.
Proof.
  intros Hsubmit route. subst route. rewrite main_submitted by done.
  destruct (route_log n (query w) None (logged w submit_log))
    as (route_evs & Hlog & Hcases).
  exists route_evs. split; [done|]. split; [done|].
  destruct (Runner_run _ _ _ _ _) as [[result|e] w']; cbn [fst snd] in *;
    subst w'; by rewrite !logged_logged, ?app_nil_r.
Qed.

Ltac route_cases H :=
  destruct H as [-> | [-> | (specialist & [-> | ->]%specialist_is_one_of
                              & ->)]].

(** C5, as it is stated, fails: the busy indicator is not shown while the
    route runs.  On the sample world the runtime is called after the
    indicator has been hidden. *)
Lemma busy_indicator_hidden_during_route :
  ~ (forall n w,
       submitted w = true ->
       busy_during_runtime false (added (log w) (log (main (2 + n) w).2))
       = true).
Proof.
  intros H. specialize (H 0 (sample_world true "quarks?") eq_refl).
  vm_compute in H. discriminate.
Qed.

(** C5, amended: every submit performs exactly one invocation of the
    route, and [main] waits for it.  The busy indicator is shown around
    the fixed delay only and is hidden again before the route starts;
    after it the log holds events of the runtime alone up to the end of
    the route.  Only then is something rendered: when the route returns,
    its final output, next and once; when it fails, the error message of
    the exception, which [main] leaves unhandled. *)
Theorem submit_routes_once (n : nat) (w : World) :
  submitted w = true ->
  let route :=
    Runner_run (2 + n) triage_agent (query w) None (logged w submit_log) in
  let submit := main (2 + n) w in
  let evs := added (log w) (log submit.2) in
  let page := page_of (main (2 + n)) w in
  exists route_evs rendered,
    evs = submit_log ++ route_evs ++ rendered
    /\ elements page = evs
    /\ added (log (logged w submit_log)) (log route.2) = route_evs
    /\ List.filter is_route_start evs
       = [RunStarted "Triage Agent" (query w)]
    /\ Forall (fun ev => is_runtime_event ev = true) route_evs
    /\ busy_during_runtime false submit_log = true
    /\ busy_during_runtime false evs = false
    /\ match route.1 with
       | Return result =>
           submit.1 = Return tt
           /\ rendered = [UiWrite (final_output result)]
           /\ error page = None
       | Raise e =>
           submit.1 = Raise e /\ rendered = []
           /\ exists exn, e = Exception exn /\ error page = Some exn
       end.
Proof.
  intros Hsubmit route submit evs page. subst route submit evs page.
  unfold page_of. simpl (2 + n). cbn [elements error].
  destruct (submit_log_shape n w Hsubmit)
    as (route_evs & Hcases & Hroute & Hmain).
  pose proof (route_not_out_of_fuel n (query w) None (logged w submit_log))
    as Hfuel.
  exists (guardrail_log (query w) ++ route_evs).
  exists (match (Runner_run (S (S n)) triage_agent (query w) None
                   (logged w submit_log)).1 with
          | Return result => [UiWrite (final_output result)]
          | Raise _ => []
          end).
  rewrite Hroute, Hmain, added_logged.
  destruct (Runner_run (S (S n)) triage_agent (query w) None
              (logged w submit_log)).1 as [result|[exn|]];
    [| |done];
    cbn [fst snd]; rewrite added_logged;
    repeat split; eauto; route_cases Hcases; try done;
    by repeat constructor.
Qed.

Lemma submit_routes_once_sample :
  List.filter is_route_start (log (main 2 (sample_world true "quarks?")).2)
  = [RunStarted "Triage Agent" "quarks?"]
  /\ busy_during_runtime false
       (log (main 2 (sample_world true "quarks?")).2) = false
  /\ (exists exn,
        (Runner_run 2 triage_agent "quarks?" None
           (logged (offline_world "quarks?") submit_log)).1
        = Raise (Exception exn)
        /\ error (page_of (main 2) (offline_world "quarks?")) = Some exn).
Proof.
  destruct (submit_routes_once 0 (sample_world true "quarks?") eq_refl)
    as (route_evs & rendered & _ & _ & _ & Honce & _ & _ & Hbusy & _).
  split; [exact Honce|]. split; [exact Hbusy|].
  destruct (submit_routes_once 0 (offline_world "quarks?") eq_refl)
    as (route_evs' & rendered' & _ & _ & _ & _ & _ & _ & _ & Hend).
  destruct (Runner_run (2 + 0) triage_agent (query (offline_world "quarks?"))
              None (logged (offline_world "quarks?") submit_log)).1
    as [result|e] eqn:Hroute.
  - discriminate Hroute.
  - destruct Hend as (_ & _ & exn & -> & Herror).
    exists exn. split; [exact Hroute | exact Herror].
Defined.

(** C8: on every submit the script sleeps for the constant ten seconds,
    once, and does so before anything of the agent runtime happens: no
    event of the runtime precedes the sleep, and the start of the route
    follows it. *)
Theorem delay_precedes_runtime_call (n : nat) (w : World) :
  submitted w = true ->
  let evs := added (log w) (log (main (2 + n) w).2) in
  exists before after,
    evs = before ++ Slept 10 :: after
    /\ Forall (fun ev => is_runtime_event ev = false) before
    /\ head (List.filter is_runtime_event after)
       = Some (RunStarted "Triage Agent" (query w))
    /\ Forall (fun ev => forall seconds, ev <> Slept seconds) after.
Proof.
  intros Hsubmit evs. subst evs. simpl (2 + n).
  destruct (submit_log_shape n w Hsubmit)
    as (route_evs & Hcases & _ & Hmain).
  exists [UiTextInput "Enter your research query:" false;
          UiButton "Submit"; SpinnerShown "Processing..."].
  rewrite Hmain.
  destruct (Runner_run (S (S n)) triage_agent (query w) None
              (logged w submit_log)).1 as [result|e];
    cbn [fst snd]; rewrite added_logged;
    (eexists; split; [reflexivity|]);
    (split; [by repeat constructor|]);
    (split; [by route_cases Hcases|]);
    route_cases Hcases; by repeat constructor.
Qed.

Lemma delay_precedes_runtime_call_sample :
  exists before after,
    log (main 2 (sample_world true "quarks?")).2
    = before ++ Slept 10 :: after
    /\ Forall (fun ev => is_runtime_event ev = false) before
    /\ head (List.filter is_runtime_event after)
       = Some (RunStarted "Triage Agent" "quarks?")
    /\ Forall (fun ev => forall seconds, ev <> Slept seconds) after.
Proof.
  exact (delay_precedes_runtime_call 0 (sample_world true "quarks?")
           eq_refl).
Defined.

(** C7: a submit of the empty query is forwarded like any other: the
    route is started on it, the guardrail agent is called with the empty
    string, and the verdict handed to the runtime is the evaluator's
    judgment of it, the tripwire being the negated flag; a rejection ends
    the submit with the tripwire, an acceptance lets the route go on to
    the selection. *)
Theorem empty_query_reaches_guardrail (n : nat) (w : World) :
  submitted w = true -> query w = "" ->
  let submit := main (2 + n) w in
  let evs := added (log w) (log submit.2) in
  (exists after, evs = submit_log ++ guardrail_log "" ++ after)
  /\ Invoked (name guardrail_agent) "" ∈ evs
  /\ (forall r ctx agent,
        classification w "" = Some r ->
        (research_guardrail (Runner_run (1 + n)) ctx agent ""
           (logged w (submit_log ++ [RunStarted "Triage Agent" ""]))).1
        = Return {| output_info := Structured r;
                    tripwire_triggered := negb (is_research r) |})
  /\ (forall r,
        classification w "" = Some r -> is_research r = false ->
        submit.1 = Raise (Exception (tripwire r)))
  /\ (forall r,
        classification w "" = Some r -> is_research r = true ->
        Invoked (name triage_agent) "" ∈ evs).
Proof.
  intros Hsubmit Hquery submit evs. subst submit evs. simpl (2 + n).
  destruct (submit_log_shape n w Hsubmit)
    as (route_evs & Hcases & _ & Hmain).
  assert (exists after,
            added (log w) (log (main (S (S n)) w).2)
            = submit_log ++ guardrail_log "" ++ after) as [after Hafter].
  { rewrite Hquery in Hmain. rewrite Hmain.
    destruct (Runner_run _ _ _ _ _).1; cbn [snd]; rewrite added_logged,
      <- !app_assoc; eauto. }
  split; [by exists after|]. rewrite Hafter.
  split; [|split; [|split]].
  - simpl. rewrite !elem_of_cons. tauto.
  - intros r ctx agent Hr.
    by rewrite (research_guardrail_classified n ctx agent "" _ r).
  - intros r Hr Hflag. rewrite main_submitted, Hquery by done.
    by rewrite (route_rejected n "" None (logged w submit_log) r).
  - intros r Hr Hflag. rewrite <- Hafter.
    rewrite main_submitted, Hquery by done.
    rewrite (route_accepted n "" None (logged w submit_log) r) by done.
    rewrite dispatch.
    destruct (choose _ _ _) as [i|message];
      [destruct (handoffs triage_agent !! i) as [specialist|];
       [destruct (respond _ specialist _) as [[answer|r']|message]|]|];
      cbn [fst snd]; rewrite !logged_logged, added_logged; simpl;
      rewrite !elem_of_cons; tauto.
Qed.

Lemma empty_query_reaches_guardrail_sample :
  Invoked "Guardrail Check" "" ∈ log (main 2 (sample_world false "")).2
  /\ (main 2 (sample_world false "")).1
     = Raise (Exception
                (tripwire {| is_research := false;
                             reasoning := "judged by the sample" |})).
Proof.
  destruct (empty_query_reaches_guardrail 0 (sample_world false "")
              eq_refl eq_refl) as (_ & Hcalled & _ & Hrejected & _).
  split; [exact Hcalled|]. by apply Hrejected.
Defined.

(** *** The credential *)

Lemma prelude_run w :
  prelude w
  = (Return tt,
     {| text_inputs := text_inputs w; clicked := clicked w;
        environ := <["OPENAI_API_KEY" := credential w]> (environ w);
        tracing_export_api_key := Some (Some (credential w));
        model := model w;
        log := log w ++ prelude_log |}).
Proof.
  unfold prelude, st_title, st_write, st_sidebar_selectbox,
    st_sidebar_text_input, st_text_input, os_environ_set, os_getenv,
    set_tracing_export_api_key, force_flush, credential.
  run_io. unfold logged; simpl. rewrite lookup_insert_eq.
  by rewrite <- !app_assoc.
Qed.

(** Run as the main program, the script is [main] after the module
    level; imported, it stops there. *)
Lemma script_run fuel dunder_name w :
  script fuel dunder_name w
  = if decide (dunder_name = "__main__")
    then main fuel (prelude w).2
    else (Return tt, (prelude w).2).
Proof.
  unfold script, bind. rewrite prelude_run. cbn [snd].
  by destruct (decide (dunder_name = "__main__")).
Qed.

(** C10: every run of the script, whatever the world, the name it runs
    under and the course of [main], overwrites OPENAI_API_KEY in the
    process environment with the current value of the credential input,
    leaves the other variables alone, and sets the tracing export key to
    the same value; before any credential has been entered that value is
    the empty string. *)
Theorem credential_overwrites_environment
    (fuel : nat) (dunder_name : string) (w : World) :
  let after_prelude := (prelude w).2 in
  let final := (script fuel dunder_name w).2 in
  (prelude w).1 = Return tt
  /\ environ after_prelude
     = <["OPENAI_API_KEY" := credential w]> (environ w)
  /\ tracing_export_api_key after_prelude = Some (Some (credential w))
  /\ environ final = <["OPENAI_API_KEY" := credential w]> (environ w)
  /\ environ final !! "OPENAI_API_KEY" = Some (credential w)
  /\ tracing_export_api_key final = Some (Some (credential w))
  /\ (text_inputs w !! "Enter your OpenAI Key" = None ->
      environ final !! "OPENAI_API_KEY" = Some ""
      /\ tracing_export_api_key final = Some (Some "")).
Proof.
  intros after_prelude final. subst after_prelude final.
  assert (environ (script fuel dunder_name w).2
          = <["OPENAI_API_KEY" := credential w]> (environ w)
          /\ tracing_export_api_key (script fuel dunder_name w).2
             = Some (Some (credential w))) as [Henv Hkey].
  { rewrite script_run, prelude_run. cbn [snd].
    destruct (decide (dunder_name = "__main__")); [|done].
    match goal with
    | |- context [main fuel ?w1] =>
        destruct (only_logs_main fuel w1) as [evs ->]
    end.
    done. }
  rewrite Henv, Hkey, prelude_run, lookup_insert_eq. cbn [fst snd].
  repeat split; try done; unfold credential;
    match goal with H : _ !! _ = None |- _ => by rewrite H end.
Qed.

(** On the sample world no credential has been entered: the variable
    that held a key before the run holds the empty string after it. *)
Lemma credential_overwrites_environment_sample :
  environ (sample_world true "quarks?") !! "OPENAI_API_KEY"
  = Some "sk-previous"
  /\ environ (script 2 "__main__" (sample_world true "quarks?")).2
       !! "OPENAI_API_KEY" = Some ""
  /\ tracing_export_api_key
       (script 2 "__main__" (sample_world true "quarks?")).2
     = Some (Some "").
Proof.
  destruct (credential_overwrites_environment 2 "__main__"
              (sample_world true "quarks?"))
    as (_ & _ & _ & _ & _ & _ & H).
  split; [reflexivity|]. by apply H.
Defined.

(** *** Further properties of the script *)

(** X1: while the button has not been pressed, [main] draws the query
    input and the button and returns: it does not sleep, shows no busy
    indicator, starts no run of the agent runtime and renders nothing,
    whatever the query and the fuel. *)
Theorem no_submit_no_route (fuel : nat) (w : World) :
  submitted w = false ->
  let run := main fuel w in
  let evs := added (log w) (log run.2) in
  run.1 = Return tt
  /\ evs = [UiTextInput "Enter your research query:" false;
            UiButton "Submit"]
  /\ List.filter is_runtime_event evs = []
  /\ List.filter is_write evs = []
  /\ Forall (fun ev => forall seconds, ev <> Slept seconds) evs.
Proof.
  intros Hidle run evs. subst run evs. rewrite main_idle by done.
  cbn [fst snd]. rewrite added_logged.
  repeat split; by repeat constructor.
Qed.

Lemma no_submit_no_route_sample :
  (main 2 (idle_world "quarks?")).1 = Return tt
  /\ log (main 2 (idle_world "quarks?")).2
     = [UiTextInput "Enter your research query:" false; UiButton "Submit"].
Proof.
  destruct (no_submit_no_route 2 (idle_world "quarks?") eq_refl)
    as (Hout & Hlog & _).
  split; [exact Hout | exact Hlog].
Defined.

(** X2: when the file is not run as the main program, [main] is not
    called: neither the query input nor the button is drawn and the agent
    runtime is not used.  The module level has its effects all the same:
    the sidebar is drawn, OPENAI_API_KEY is overwritten with the credential
    input and the tracing key is set to it. *)
Theorem imported_script_skips_main
    (fuel : nat) (dunder_name : string) (w : World) :
  dunder_name <> "__main__" ->
  let run := script fuel dunder_name w in
  run.1 = Return tt
  /\ added (log w) (log run.2) = prelude_log
  /\ environ run.2 = <["OPENAI_API_KEY" := credential w]> (environ w)
  /\ tracing_export_api_key run.2 = Some (Some (credential w)).
Proof.
  intros Hname run. subst run. rewrite script_run, prelude_run.
  destruct (decide (dunder_name = "__main__")); [done|].
  cbn [fst snd]. simpl. by rewrite added_app.
Qed.

Lemma imported_script_skips_main_sample :
  log (script 2 "app" (sample_world true "quarks?")).2 = prelude_log
  /\ environ (script 2 "app" (sample_world true "quarks?")).2
       !! "OPENAI_API_KEY" = Some "".
Proof.
  destruct (imported_script_skips_main 2 "app"
              (sample_world true "quarks?"))
    as (_ & Hlog & Henv & _); [done|].
  split; [exact Hlog|]. rewrite Henv. reflexivity.
Defined.

(** X3: the guardrail function, whatever [Runner.run] is.  It runs the
    guardrail agent on the input it is given, with the context of [ctx],
    and adds no effect of its own.  When that run raises, it raises the
    same exception; when that run ends with a [ResearchOutput], the
    verdict carries this output unchanged and the tripwire is the negation
    of [is_research].  The agent it is called for plays no part. *)
Theorem research_guardrail_verdict
    (run : Agent -> string -> option string -> IO RunResult)
    (ctx : RunContextWrapper) (agent : Agent) (input_data : string)
    (w : World) :
  let call := run guardrail_agent input_data (context ctx) w in
  let verdict := research_guardrail run ctx agent input_data w in
  (forall r last,
     call.1 = Return {| final_output := Structured r; last_agent := last |} ->
     verdict = (Return {| output_info := Structured r;
                          tripwire_triggered := negb (is_research r) |},
                call.2))
  /\ (forall e, call.1 = Raise e -> verdict = (Raise e, call.2))
  /\ (forall agent',
        research_guardrail run ctx agent' input_data w = verdict).
Proof.
  intros call verdict. subst call verdict.
  split; [|split; [|reflexivity]]; unfold research_guardrail, bind;
    destruct (run guardrail_agent input_data (context ctx) w)
      as [[result|e] w']; cbn [fst snd].
  - intros r last [= ->]. reflexivity.
  - intros r last H. discriminate.
  - intros e H. discriminate.
  - by intros e' [= ->].
Qed.

(** On the sample world that rejects, with the runtime of the script. *)
Lemma research_guardrail_verdict_sample :
  (research_guardrail (Runner_run 1) {| context := None |} triage_agent
     "lunch?" (sample_world false "lunch?")).1
  = Return {| output_info :=
                Structured {| is_research := false;
                              reasoning := "judged by the sample" |};
              tripwire_triggered := true |}.
Proof.
  exact (f_equal fst
           (proj1 (research_guardrail_verdict (Runner_run 1)
                     {| context := None |} triage_agent "lunch?"
                     (sample_world false "lunch?"))
                  _ _ eq_refl)).
Defined.

(** X4: the gate fails closed.  When the run of the guardrail agent gives
    no well-formed judgment (the hosted model cannot be reached, or its
    answer is not a [ResearchOutput]), a submit ends with that failure:
    no specialist is invoked and nothing is written. *)
Theorem unclassified_query_fails_closed (n : nat) (w : World) :
  submitted w = true -> classification w (query w) = None ->
  let run := main (2 + n) w in
  let evs := added (log w) (log run.2) in
  (exists e,
     run.1 = Raise (Exception e)
     /\ (e = ModelBehaviorError "Guardrail Check"
         \/ exists message, e = RuntimeUnavailable message))
  /\ specialist_calls evs = []
  /\ List.filter is_write evs = [].
Proof.
  intros Hsubmit Hc run evs. subst run evs. simpl (2 + n).
  rewrite main_submitted by done.
  destruct (route_unclassified n (query w) None (logged w submit_log) Hc)
    as (e & -> & He).
  cbn [fst snd]. rewrite logged_logged, added_logged.
  split; [by exists e|]. done.
Qed.

Lemma unclassified_query_fails_closed_sample :
  (exists e,
     (main 2 (offline_world "quarks?")).1 = Raise (Exception e)
     /\ (e = ModelBehaviorError "Guardrail Check"
         \/ exists message, e = RuntimeUnavailable message))
  /\ specialist_calls (log (main 2 (offline_world "quarks?")).2) = [].
Proof.
  destruct (unclassified_query_fails_closed 0 (offline_world "quarks?")
              eq_refl eq_refl) as (Hout & Hcalls & _).
  split; [exact Hout | exact Hcalls].
Defined.

(** X5: the query reaches the agent runtime as it was entered.  Every run
    that a call of [main] starts and every call of the hosted model that it
    causes carries the value of the query input, unchanged; on a submit
    these include the route and the run and call of the guardrail agent. *)
Theorem query_forwarded_verbatim (n : nat) (w : World) :
  let evs := added (log w) (log (main (2 + n) w).2) in
  Forall (carries (query w)) evs
  /\ (submitted w = true ->
      RunStarted (name triage_agent) (query w) ∈ evs
      /\ RunStarted (name guardrail_agent) (query w) ∈ evs
      /\ Invoked (name guardrail_agent) (query w) ∈ evs).
Proof.
  intros evs. subst evs. simpl (2 + n).
  destruct (submitted w) eqn:Hsubmit.
  - destruct (submit_log_shape n w Hsubmit)
      as (route_evs & Hcases & _ & ->).
    destruct (Runner_run (S (S n)) triage_agent (query w) None
                (logged w submit_log)).1 as [result|e];
      cbn [fst snd]; rewrite added_logged; split.
    + route_cases Hcases; by repeat constructor.
    + intros _. simpl. rewrite !elem_of_cons. tauto.
    + route_cases Hcases; by repeat constructor.
    + intros _. simpl. rewrite !elem_of_cons. tauto.
  - rewrite main_idle by done. cbn [fst snd]. rewrite added_logged.
    split; [by repeat constructor | discriminate].
Qed.

(** X6: the busy indicator is never left on.  After a call of [main],
    with or without a submit and whether the route returns or raises,
    the indicator is hidden. *)
Theorem spinner_never_left_shown (n : nat) (w : World) :
  spinner_after false (added (log w) (log (main (2 + n) w).2)) = false.
Proof.
  simpl (2 + n). destruct (submitted w) eqn:Hsubmit.
  - destruct (submit_log_shape n w Hsubmit)
      as (route_evs & Hcases & _ & ->).
    destruct (Runner_run (S (S n)) triage_agent (query w) None
                (logged w submit_log)).1 as [result|e];
      cbn [fst snd]; rewrite added_logged; by route_cases Hcases.
  - rewrite main_idle by done. cbn [fst snd]. by rewrite added_logged.
Qed.

(** X7: the last run decides the credential.  When the script is run
    again in the same process with new widget values, OPENAI_API_KEY and
    the tracing key hold the credential input of the later run, whatever
    the earlier run had set, and the other environment variables are
    still those from before the first run. *)
Theorem credential_last_run_wins
    (fuel fuel' : nat) (dunder_name dunder_name' : string) (w : World)
    (inputs : gmap string string) (pressed : gset string) (m : Model) :
  let first := (script fuel dunder_name w).2 in
  let again := rerun first inputs pressed m in
  let second := (script fuel' dunder_name' again).2 in
  environ second = <["OPENAI_API_KEY" := credential again]> (environ w)
  /\ environ second !! "OPENAI_API_KEY"
     = Some (default "" (inputs !! "Enter your OpenAI Key"))
  /\ tracing_export_api_key second = Some (Some (credential again))
  /\ (forall key, key <> "OPENAI_API_KEY" ->
                  environ second !! key = environ w !! key).
Proof.
  intros first again second.
  assert (forall f d v,
            environ (script f d v).2
            = <["OPENAI_API_KEY" := credential v]> (environ v)
            /\ tracing_export_api_key (script f d v).2
               = Some (Some (credential v))) as Hrun.
  { intros f d v. rewrite script_run, prelude_run. cbn [snd].
    destruct (decide (d = "__main__")); [|done].
    match goal with
    | |- context [main f ?v1] => destruct (only_logs_main f v1) as [evs ->]
    end.
    done. }
  destruct (Hrun fuel' dunder_name' again) as [Henv Hkey].
  destruct (Hrun fuel dunder_name w) as [Henv0 _].
  assert (environ second
          = <["OPENAI_API_KEY" := credential again]> (environ w)) as Hsecond.
  { subst second. rewrite Henv. subst again. simpl environ. subst first.
    rewrite Henv0. apply insert_insert_eq. }
  split; [done|]. split; [|split; [done|]].
  - rewrite Hsecond, lookup_insert_eq. reflexivity.
  - intros key Hkey'. rewrite Hsecond. by rewrite lookup_insert_ne.
Qed.

End AppFacts.
